(** * Runtime selection of the SHA-256 pair-hashing kernel

    A shallow embedding of [crypto/hash/custom_hasher/hasher.cpp]: the
    capability probe [Hasher::implemented], the selection policy
    [Hasher::best_sha256_implementation], the constructor [Hasher::Hasher]
    and the one-block-at-a-time kernel [Hasher::sha256_sse]. *)

From Stdlib Require Import ZArith List Bool Lia.
From Stdlib Require Import Strings.Byte.
Import ListNotations.
Local Open Scope Z_scope.

(** ** The capability bitmask [Hasher::IMPL] *)

(** [IMPL] is a scoped enumeration used as a bitmask; a value is represented
    by its underlying integer. *)
Definition IMPL : Type := Z.

(** Modelled from the spec: the enumerators of [IMPL] are declared in
    [hasher.hpp], which is not among the sources.  The four capability flags
    are kept abstract; [NONE] is the empty mask, the identity of bitwise OR. *)
Class IMPL_flags : Type := {
  SSE : IMPL;
  AVX : IMPL;
  AVX2 : IMPL;
  SHA : IMPL
}.

Definition NONE : IMPL := 0.

(** Modelled from the spec: [operator|], [operator&] and [operator!] on [IMPL]
    are declared in [hasher.hpp], which is not among the sources.  The spec
    describes the type as a bitmask with bitwise OR and AND; [!x] holds when
    no bit of [x] is set. *)
Definition impl_or (a b : IMPL) : IMPL := Z.lor a b.
Definition impl_and (a b : IMPL) : IMPL := Z.land a b.
Definition impl_not (a : IMPL) : bool := a =? NONE.

(** A C++ condition on an integer holds when the integer is not zero. *)
Definition nonzero (x : Z) : bool := negb (x =? 0).

(** The flag test [!!(impl & flag)] of [best_sha256_implementation]. *)
Definition has_flag (impl flag : IMPL) : bool := negb (impl_not (impl_and impl flag)).

(** What the missing enumeration has to satisfy to be a set of flags: every
    flag has a bit, and no two flags share one. *)
Class IMPL_flags_ok (F : IMPL_flags) : Prop := {
  SSE_set : SSE <> NONE;
  AVX_set : AVX <> NONE;
  AVX2_set : AVX2 <> NONE;
  SHA_set : SHA <> NONE;
  SHA_AVX2 : Z.land SHA AVX2 = 0;
  SHA_AVX : Z.land SHA AVX = 0;
  SHA_SSE : Z.land SHA SSE = 0;
  AVX2_AVX : Z.land AVX2 AVX = 0;
  AVX2_SSE : Z.land AVX2 SSE = 0;
  AVX_SSE : Z.land AVX SSE = 0
}.

(** One enumeration that satisfies it, with the flags on consecutive bits in
    the order the spec lists them. *)
Definition consecutive_flags : IMPL_flags :=
  {| SSE := 1; AVX := 2; AVX2 := 4; SHA := 8 |}.

(** ** The CPUID query of [<cpuid.h>] *)

(** The four registers written by the CPUID instruction; each is a 32-bit
    unsigned value. *)
Record cpuid_regs : Type := {
  eax : Z;
  ebx : Z;
  ecx : Z;
  edx : Z
}.

(** The processor, as far as the probe sees it: what CPUID returns for a leaf
    and a subleaf.  Leaf 0 reports the highest supported basic leaf in [eax]. *)
Definition cpu : Type := Z -> Z -> cpuid_regs.

(** Feature bits of [<cpuid.h>]. *)
Definition bit_SSE3 : Z := Z.shiftl 1 0.
Definition bit_AVX : Z := Z.shiftl 1 28.
Definition bit_AVX2 : Z := Z.shiftl 1 5.
Definition bit_SHA : Z := Z.shiftl 1 29.

Definition CPUID_LEAF : Z := 7.

(** [__get_cpuid_max (ext, 0)]: the highest supported leaf of the range
    [ext]. *)
Definition __get_cpuid_max (hw : cpu) (ext : Z) : Z := eax (hw ext 0).

(** [__get_cpuid_count (leaf, subleaf, &a, &b, &c, &d)]: when the leaf is not
    supported the call returns 0 and writes nothing, so the caller's
    variables keep the values [r] they had; otherwise it returns 1 and the
    variables hold the registers. *)
Definition __get_cpuid_count (hw : cpu) (leaf subleaf : Z) (r : cpuid_regs)
  : Z * cpuid_regs :=
  let ext := Z.land leaf 0x80000000 in
  let maxlevel := __get_cpuid_max hw ext in
  if (maxlevel =? 0) || (maxlevel <? leaf) then (0, r)
  else (1, hw leaf subleaf).

(** [__get_cpuid (leaf, &a, &b, &c, &d)]: the same for subleaf 0. *)
Definition __get_cpuid (hw : cpu) (leaf : Z) (r : cpuid_regs) : Z * cpuid_regs :=
  __get_cpuid_count hw leaf 0 r.

(** ** The kernels *)

(** [Hasher::SHA256_hasher] is a pointer to a kernel; the four kernels the
    source can bind are the values of the type.  [sha256_sse] is the address
    of the member function whose body is [Hasher_sha256_sse] below. *)
Inductive SHA256_hasher : Type :=
| sha256_shani
| sha256_8_avx2
| sha256_4_avx
| sha256_sse.

Section Selection.
Context {F : IMPL_flags}.

(** ** [Hasher::implemented] *)

(** [r0] holds the values of the locals [a], [b], [c], [d] at their
    declaration: they are declared without an initialiser, and the results of
    the two queries are not looked at. *)
Definition implemented (hw : cpu) (r0 : cpuid_regs) : IMPL :=
  let ret := NONE in
  let r := snd (__get_cpuid_count hw CPUID_LEAF 0 r0) in
  let ret := if nonzero (Z.land (ebx r) bit_SHA) then impl_or ret SHA else ret in
  let ret := if nonzero (Z.land (ebx r) bit_AVX2) then impl_or ret AVX2 else ret in
  let r := snd (__get_cpuid hw 1 r) in
  let ret := if nonzero (Z.land (ecx r) bit_AVX) then impl_or ret AVX else ret in
  let ret := if nonzero (Z.land (ecx r) bit_SSE3) then impl_or ret SSE else ret in
  ret.

(** ** [Hasher::best_sha256_implementation] *)

(** The chain of tests applied to the probed mask [impl]. *)
Definition select (impl : IMPL) : SHA256_hasher :=
  if has_flag impl SHA then sha256_shani
  else if has_flag impl AVX2 then sha256_8_avx2
  else if has_flag impl AVX then sha256_4_avx
  else sha256_sse.

Definition best_sha256_implementation (hw : cpu) (r0 : cpuid_regs) : SHA256_hasher :=
  let impl := implemented hw r0 in
  select impl.

(** ** [Hasher::Hasher] *)

Record Hasher : Type := { _hash_64b_blocks : SHA256_hasher }.

(** The [switch] over the argument; [r0] is passed on to the probe of the
    default branch. *)
Definition Hasher_new (hw : cpu) (r0 : cpuid_regs) (impl : IMPL) : Hasher :=
  if impl =? SHA then {| _hash_64b_blocks := sha256_shani |}
  else if impl =? AVX2 then {| _hash_64b_blocks := sha256_8_avx2 |}
  else if impl =? AVX then {| _hash_64b_blocks := sha256_4_avx |}
  else if impl =? SSE then {| _hash_64b_blocks := sha256_sse |}
  else {| _hash_64b_blocks := best_sha256_implementation hw r0 |}.

End Selection.

(** ** Memory

    The kernels work on raw pointers: [output] and [input] are addresses in
    one byte-addressed memory, and nothing keeps the two regions apart. *)
Definition mem : Type := Z -> byte.

Definition load (m : mem) (p : Z) (n : nat) : list byte :=
  map (fun k => m (p + Z.of_nat k)) (seq 0 n).

Definition store (m : mem) (p : Z) (bs : list byte) : mem :=
  fun a =>
    if (p <=? a) && (a <? p + Z.of_nat (length bs))
    then nth (Z.to_nat (a - p)) bs x00
    else m a.

(** Modelled from the spec: [constants::BYTES_PER_CHUNK] is declared in
    [hasher.hpp], which is not among the sources.  A digest has 32 bytes and
    an input block has two of them. *)
Definition BYTES_PER_CHUNK : Z := 32.

(** The condition under which a batch call reads every input block as the
    caller left it: the 32 bytes written for block [j] stay clear of the 64
    bytes of every later block [k].  Disjoint regions satisfy it, and so does
    hashing in place. *)
Definition spares_later_inputs (output input blocks : Z) : Prop :=
  forall j k : Z,
    0 <= j < k -> k < blocks ->
    output + 32 * j + 32 <= input + 64 * k \/
    input + 64 * k + 64 <= output + 32 * j.

Section Kernels.

(** The assembly routine [sha256_1_avx] is external: it reads the 64 bytes at
    [input] and writes their digest at [output].  The digest function is a
    parameter. *)
Variable sha256_1_avx_digest : list byte -> list byte.

Definition sha256_1_avx (m : mem) (output input : Z) : mem :=
  store m output (sha256_1_avx_digest (load m input 64)).

(** ** [Hasher::sha256_sse] *)

(** The [while (blocks)] loop; [blocks] counts down to zero. *)
Fixpoint sha256_sse_loop (m : mem) (output input : Z) (blocks : nat) : mem :=
  match blocks with
  | O => m
  | S blocks' =>
      let m := sha256_1_avx m output input in
      let input := input + 2 * BYTES_PER_CHUNK in
      let output := output + BYTES_PER_CHUNK in
      sha256_sse_loop m output input blocks'
  end.

Definition Hasher_sha256_sse (m : mem) (output input : Z) (blocks : N) : mem :=
  sha256_sse_loop m output input (N.to_nat blocks).

(** ** The life of a [Hasher] *)

(** The three kernels of [hasher.h] are external assembly routines. *)
Variable ext_sha256_shani : mem -> Z -> Z -> N -> mem.
Variable ext_sha256_8_avx2 : mem -> Z -> Z -> N -> mem.
Variable ext_sha256_4_avx : mem -> Z -> Z -> N -> mem.

(** A call through a kernel pointer. *)
Definition call_kernel (k : SHA256_hasher) : mem -> Z -> Z -> N -> mem :=
  match k with
  | sha256_shani => ext_sha256_shani
  | sha256_8_avx2 => ext_sha256_8_avx2
  | sha256_4_avx => ext_sha256_4_avx
  | sha256_sse => Hasher_sha256_sse
  end.

Context {F : IMPL_flags}.
Variable hw : cpu.

(** Modelled from the spec: the class declaration is in [hasher.hpp], which
    is not among the sources.  After construction a Dispatcher exposes one
    operation, which forwards the request to the bound kernel. *)
Definition hash_pairs (h : Hasher) (m : mem) (output input : Z) (blocks : N)
  : Hasher * mem :=
  (h, call_kernel (_hash_64b_blocks h) m output input blocks).

(** A Dispatcher is unbound until its constructor has run. *)
Inductive Dispatcher : Type :=
| Unbound
| Bound (h : Hasher).

(** What happens to a Dispatcher: it is constructed from an argument (with
    the probe's locals holding [r0]), or asked to hash. *)
Inductive event : Type :=
| Construct (impl : IMPL) (r0 : cpuid_regs)
| Hash_pairs (output input : Z) (blocks : N).

Inductive step : Dispatcher * mem -> event -> Dispatcher * mem -> Prop :=
| step_construct : forall m impl r0,
    step (Unbound, m) (Construct impl r0) (Bound (Hasher_new hw r0 impl), m)
| step_hash_pairs : forall h m output input blocks,
    step (Bound h, m) (Hash_pairs output input blocks)
         (Bound (fst (hash_pairs h m output input blocks)),
          snd (hash_pairs h m output input blocks)).

Inductive steps : Dispatcher * mem -> list event -> Dispatcher * mem -> Prop :=
| steps_nil : forall st, steps st [] st
| steps_cons : forall st e st' es st'',
    step st e st' -> steps st' es st'' -> steps st (e :: es) st''.

End Kernels.

(** ** The selection policy as the spec words it *)

Section Policy.
Context {F : IMPL_flags}.

(** The catalog: candidates in descending priority, each with the flag it
    requires -- hardware SHA first, then 8-way AVX2, then 4-way AVX. *)
Definition catalog : list (IMPL * SHA256_hasher) :=
  [ (SHA, sha256_shani); (AVX2, sha256_8_avx2); (AVX, sha256_4_avx) ].

(** Walk a catalog and return the first candidate whose flag is present in
    [caps], or [fallback] when there is none. *)
Fixpoint first_match (caps : IMPL) (cat : list (IMPL * SHA256_hasher))
    (fallback : SHA256_hasher) : SHA256_hasher :=
  match cat with
  | [] => fallback
  | (flag, k) :: cat' =>
      if has_flag caps flag then k else first_match caps cat' fallback
  end.

Definition select_spec (caps : IMPL) : SHA256_hasher :=
  first_match caps catalog sha256_sse.

(** The four enumerators the constructor's [switch] has a case for. *)
Definition single_flags : list IMPL := [ SHA; AVX2; AVX; SSE ].

(** The flag whose test guards the return of each kernel in
    [best_sha256_implementation]; the last return is not guarded. *)
Definition required_flag (k : SHA256_hasher) : option IMPL :=
  match k with
  | sha256_shani => Some SHA
  | sha256_8_avx2 => Some AVX2
  | sha256_4_avx => Some AVX
  | sha256_sse => None
  end.

(** Modelled from the spec: the body of the assembly routine [sha256_1_avx]
    is not among the sources, so the instructions it uses are not known.  The
    spec calls the fallback a scalar, baseline implementation that requires
    no special instruction extension. *)
Definition sha256_1_avx_requires : IMPL := NONE.

(** The extensions a processor needs to run a kernel: the flag under which
    the kernel is selected, and for [Hasher::sha256_sse], which only loops
    over calls of [sha256_1_avx], what that routine needs. *)
Definition required_extension (k : SHA256_hasher) : IMPL :=
  match k with
  | sha256_shani => SHA
  | sha256_8_avx2 => AVX2
  | sha256_4_avx => AVX
  | sha256_sse => sha256_1_avx_requires
  end.

(** A target with capabilities [target] can run [k] when it has every
    extension [k] needs. *)
Definition runs_on (target : IMPL) (k : SHA256_hasher) : bool :=
  impl_and target (required_extension k) =? required_extension k.

End Policy.

(** ** Replaying requests through a fixed kernel *)

Section Replay.
Variable sha256_1_avx_digest : list byte -> list byte.
Variable ext_sha256_shani : mem -> Z -> Z -> N -> mem.
Variable ext_sha256_8_avx2 : mem -> Z -> Z -> N -> mem.
Variable ext_sha256_4_avx : mem -> Z -> Z -> N -> mem.

(** A request: output pointer, input pointer and block count. *)
Definition request : Type := (Z * Z * N)%type.

Definition request_event (c : request) : event :=
  let '(output, input, blocks) := c in Hash_pairs output input blocks.

Fixpoint forward (k : SHA256_hasher) (m : mem) (cs : list request) : mem :=
  match cs with
  | [] => m
  | (output, input, blocks) :: cs' =>
      forward k
        (call_kernel sha256_1_avx_digest ext_sha256_shani ext_sha256_8_avx2
           ext_sha256_4_avx k m output input blocks)
        cs'
  end.

End Replay.

(** ** Concrete processors and kernels *)

Definition zero_regs : cpuid_regs := {| eax := 0; ebx := 0; ecx := 0; edx := 0 |}.

(** A processor whose highest basic leaf is [maxleaf], whose leaf 7 reports
    [b7] in [ebx] and whose leaf 1 reports [c1] in [ecx]. *)
Definition cpu_of (maxleaf b7 c1 : Z) : cpu :=
  fun leaf _ =>
    if leaf =? 0 then {| eax := maxleaf; ebx := 0; ecx := 0; edx := 0 |}
    else if leaf =? 1 then {| eax := 0; ebx := 0; ecx := c1; edx := 0 |}
    else if leaf =? 7 then {| eax := 0; ebx := b7; ecx := 0; edx := 0 |}
    else zero_regs.

(** An early x86-64 processor: basic leaves 0 and 1 only, SSE3 and nothing
    newer. *)
Definition cpu_leaf1_only : cpu := cpu_of 1 0 bit_SSE3.

(** Locals that happen to hold bit 29 of [b] before the probe runs. *)
Definition stale_regs : cpuid_regs :=
  {| eax := 0; ebx := bit_SHA; ecx := 0; edx := 0 |}.

(** A stand-in digest that depends on its input: the first 32 bytes of the
    block. *)
Definition first_half (blk : list byte) : list byte :=
  firstn 32 (blk ++ repeat x00 32).

(** A memory whose byte at address [a] is [a] modulo 256. *)
Definition ramp_mem : mem :=
  fun a =>
    match Byte.of_N (Z.to_N (a mod 256)) with
    | Some b => b
    | None => x00
    end.

(** ** Vocabulary for the further properties *)

(** The mask with every flag the probe can report. *)
Definition every_flag {F : IMPL_flags} : IMPL :=
  impl_or (impl_or (impl_or SHA AVX2) AVX) SSE.

(** The [blocks] input blocks of 64 bytes that start at [input]. *)
Definition input_blocks (m : mem) (input : Z) (blocks : nat) : list (list byte) :=
  map (fun k => load m (input + 64 * Z.of_nat k) 64) (seq 0 blocks).

(** * Properties *)

(** ** The definitions at work *)

Example select_every_flag : @select consecutive_flags 15 = sha256_shani.
Proof. reflexivity. Qed.

Example select_avx_and_sse : @select consecutive_flags 3 = sha256_4_avx.
Proof. reflexivity. Qed.

Example select_no_flag : @select consecutive_flags NONE = sha256_sse.
Proof. reflexivity. Qed.

Example implemented_recent_cpu :
  @implemented consecutive_flags
    (cpu_of 13 (Z.lor bit_SHA bit_AVX2) (Z.lor bit_AVX bit_SSE3)) stale_regs = 15.
Proof. reflexivity. Qed.

Example implemented_leaf1_only_zeroed_locals :
  @implemented consecutive_flags cpu_leaf1_only zero_regs = 1.
Proof. reflexivity. Qed.

Example Hasher_new_SSE :
  @Hasher_new consecutive_flags (cpu_of 13 bit_SHA 0) zero_regs 1 =
  {| _hash_64b_blocks := sha256_sse |}.
Proof. reflexivity. Qed.

Example sha256_sse_two_blocks :
  load (Hasher_sha256_sse first_half ramp_mem 1000 0 2) 1000 64 =
  load ramp_mem 0 32 ++ load ramp_mem 64 32.
Proof. vm_compute. reflexivity. Qed.

(** ** Bit-level facts about masks *)

Lemma consecutive_flags_ok : IMPL_flags_ok consecutive_flags.
Proof. split; vm_compute; congruence. Qed.

Lemma has_flag_true (impl flag : IMPL) :
  has_flag impl flag = true <-> Z.land impl flag <> 0.
Proof.
  unfold has_flag, impl_not, impl_and, NONE.
  rewrite negb_true_iff, Z.eqb_neq. tauto.
Qed.

Lemma has_flag_false (impl flag : IMPL) :
  has_flag impl flag = false <-> Z.land impl flag = 0.
Proof.
  unfold has_flag, impl_not, impl_and, NONE.
  rewrite negb_false_iff, Z.eqb_eq. tauto.
Qed.

(** Adding a flag that shares no bit with [flag] does not change the test of
    [flag]. *)
Lemma has_flag_or_other (impl other flag : IMPL) :
  Z.land other flag = 0 ->
  has_flag (impl_or impl other) flag = has_flag impl flag.
Proof.
  intro Hd. unfold has_flag, impl_and, impl_or.
  now rewrite Z.land_lor_distr_l, Hd, Z.lor_0_r.
Qed.

Lemma has_flag_or_same (impl flag : IMPL) :
  flag <> NONE -> has_flag (impl_or impl flag) flag = true.
Proof.
  intro Hf. apply has_flag_true. unfold impl_or.
  rewrite Z.land_lor_distr_l, Z.land_diag.
  intro H0. apply Z.lor_eq_0_iff in H0. now destruct H0.
Qed.

Lemma land_lor_absorb (f g : Z) : Z.land f (Z.lor f g) = f.
Proof.
  apply Z.bits_inj'. intros n _.
  rewrite Z.land_spec, Z.lor_spec.
  destruct (Z.testbit f n); reflexivity.
Qed.

(** A mask made of two flags is none of the flags it shares no bit with, and
    neither of the two. *)
Lemma or_two_flags_neq (f g h : IMPL) :
  f <> NONE -> g <> NONE ->
  Z.land f h = 0 \/ Z.land g h = 0 ->
  impl_or f g <> h.
Proof.
  unfold impl_or, NONE. intros Hf Hg Hd He. subst h.
  destruct Hd as [Hd | Hd].
  - apply Hf. rewrite <- Hd. symmetry. apply land_lor_absorb.
  - apply Hg. rewrite <- Hd. rewrite (Z.lor_comm f g).
    symmetry. apply land_lor_absorb.
Qed.

(** ** The selection policy *)

Section SelectionFacts.
Context {F : IMPL_flags}.

Lemma select_cases (caps : IMPL) :
  (has_flag caps SHA = true /\ select caps = sha256_shani) \/
  (has_flag caps SHA = false /\ has_flag caps AVX2 = true /\
   select caps = sha256_8_avx2) \/
  (has_flag caps SHA = false /\ has_flag caps AVX2 = false /\
   has_flag caps AVX = true /\ select caps = sha256_4_avx) \/
  (has_flag caps SHA = false /\ has_flag caps AVX2 = false /\
   has_flag caps AVX = false /\ select caps = sha256_sse).
Proof.
  unfold select.
  destruct (has_flag caps SHA); [ now left | ].
  destruct (has_flag caps AVX2); [ right; now left | ].
  destruct (has_flag caps AVX); [ right; right; now left | ].
  right; right; right. now repeat split.
Qed.

(** In a catalog, the first candidate whose flag is present is the one
    returned, whatever comes after it. *)
Lemma first_match_skip (caps : IMPL) (before : list (IMPL * SHA256_hasher)) :
  forall flag k after fallback,
    (forall flag' k', In (flag', k') before -> has_flag caps flag' = false) ->
    has_flag caps flag = true ->
    first_match caps (before ++ (flag, k) :: after) fallback = k.
Proof.
  induction before as [ | [flag0 k0] before IH ]; intros flag k after fallback Hb Hp.
  - simpl. now rewrite Hp.
  - simpl. rewrite (Hb flag0 k0) by now left.
    apply IH; [ | exact Hp ].
    intros flag' k' Hin. apply (Hb flag' k'). now right.
Qed.

End SelectionFacts.

(** C1: for every capability set the policy of [best_sha256_implementation]
    is the walk over the catalog (SHA, then AVX2, then AVX) that returns the
    first kernel whose flag is present: a kernel is returned whenever its
    flag is present and the flags of all candidates before it are absent, so
    with SHA present the result is the SHA kernel whatever else is set, and
    with AVX2 present the result is never the AVX kernel. *)
Theorem select_first_match_in_priority_order {F : IMPL_flags} (caps : IMPL) :
  select caps = select_spec caps /\
  (forall before flag k after,
      catalog = before ++ (flag, k) :: after ->
      has_flag caps flag = true ->
      (forall flag' k', In (flag', k') before -> has_flag caps flag' = false) ->
      select caps = k) /\
  (has_flag caps SHA = true -> select caps = sha256_shani) /\
  (has_flag caps AVX2 = true ->
   select caps = sha256_shani \/ select caps = sha256_8_avx2) /\
  (has_flag caps SHA = false -> has_flag caps AVX2 = true ->
   select caps = sha256_8_avx2) /\
  (has_flag caps SHA = false -> has_flag caps AVX2 = false ->
   has_flag caps AVX = true -> select caps = sha256_4_avx).
Proof.
  assert (Href : select caps = select_spec caps) by reflexivity.
  split; [ exact Href | split ].
  - intros before flag k after Hcat Hp Hb.
    rewrite Href. unfold select_spec. rewrite Hcat. now apply first_match_skip.
  - unfold select.
    destruct (has_flag caps SHA), (has_flag caps AVX2), (has_flag caps AVX);
      repeat split; intros; try reflexivity; try discriminate; auto.
Qed.

(** With both SHA and AVX2 set (and AVX as well), the SHA kernel is chosen. *)
Lemma select_first_match_in_priority_order_witness :
  @select consecutive_flags 14 = sha256_shani.
Proof.
  apply (proj1 (proj2 (proj2
           (@select_first_match_in_priority_order consecutive_flags 14)))).
  vm_compute. reflexivity.
Defined.

(** C2: selection is total -- for every capability set there is exactly one
    kernel it returns -- and the kernel returned is either guarded by a flag
    that is present in the set, or it is the fallback [sha256_sse], the one
    kernel that is returned without a test. *)
Theorem select_total_and_usable {F : IMPL_flags} (caps : IMPL) :
  exists! k : SHA256_hasher,
    select caps = k /\
    match required_flag k with
    | Some flag => has_flag caps flag = true
    | None => k = sha256_sse
    end.
Proof.
  exists (select caps). split.
  - split; [ reflexivity | ].
    destruct (select_cases caps) as [[H1 ->] | [(H1 & H2 & ->) | [(H1 & H2 & H3 & ->) | (H1 & H2 & H3 & ->)]]];
      simpl; auto.
  - intros k [Hk _]. exact Hk.
Qed.

(** ** The probe *)

Lemma has_flag_NONE (flag : IMPL) : has_flag NONE flag = false.
Proof. apply has_flag_false. reflexivity. Qed.

Lemma has_flag_or_if (impl other flag : IMPL) (b : bool) :
  Z.land other flag = 0 ->
  has_flag (impl_or impl (if b then other else NONE)) flag = has_flag impl flag.
Proof.
  intro Hd. destruct b.
  - now apply has_flag_or_other.
  - unfold impl_or, NONE. now rewrite Z.lor_0_r.
Qed.

Section ProbeFacts.
Context {F : IMPL_flags} (ok : IMPL_flags_ok F).

(** What the probe returns, in terms of the four tested bits. *)
Lemma implemented_eq (hw : cpu) (r0 : cpuid_regs) :
  let r7 := snd (__get_cpuid_count hw CPUID_LEAF 0 r0) in
  let r1 := snd (__get_cpuid hw 1 r7) in
  implemented hw r0 =
  impl_or
    (impl_or
       (impl_or
          (impl_or NONE (if nonzero (Z.land (ebx r7) bit_SHA) then SHA else NONE))
          (if nonzero (Z.land (ebx r7) bit_AVX2) then AVX2 else NONE))
       (if nonzero (Z.land (ecx r1) bit_AVX) then AVX else NONE))
    (if nonzero (Z.land (ecx r1) bit_SSE3) then SSE else NONE).
Proof.
  intros r7 r1. unfold implemented. fold r7. fold r1.
  unfold impl_or, NONE.
  destruct (nonzero (Z.land (ebx r7) bit_SHA)),
           (nonzero (Z.land (ebx r7) bit_AVX2)),
           (nonzero (Z.land (ecx r1) bit_AVX)),
           (nonzero (Z.land (ecx r1) bit_SSE3));
    now rewrite ?Z.lor_0_r.
Qed.

(** When leaf 7 is above the highest supported leaf the first query writes
    nothing. *)
Lemma leaf7_unsupported_keeps_locals (hw : cpu) (r0 : cpuid_regs) :
  __get_cpuid_max hw 0 < CPUID_LEAF ->
  __get_cpuid_count hw CPUID_LEAF 0 r0 = (0, r0).
Proof.
  intro Hmax. unfold __get_cpuid_count.
  change (Z.land CPUID_LEAF 0x80000000) with 0. cbv zeta.
  apply Z.ltb_lt in Hmax. rewrite Hmax, orb_true_r. reflexivity.
Qed.

(** The SHA flag of the result is bit 29 of [b] as the first query left
    it. *)
Lemma implemented_SHA_test (hw : cpu) (r0 : cpuid_regs) :
  has_flag (implemented hw r0) SHA =
  nonzero (Z.land (ebx (snd (__get_cpuid_count hw CPUID_LEAF 0 r0))) bit_SHA).
Proof.
  rewrite implemented_eq. cbv zeta.
  rewrite has_flag_or_if by (rewrite Z.land_comm; apply SHA_SSE).
  rewrite has_flag_or_if by (rewrite Z.land_comm; apply SHA_AVX).
  rewrite has_flag_or_if by (rewrite Z.land_comm; apply SHA_AVX2).
  destruct (nonzero _).
  - apply has_flag_or_same, SHA_set.
  - apply has_flag_NONE.
Qed.

(** On every processor without leaf 7, whether SHA is reported is decided by
    the value [b] had before the probe ran. *)
Lemma implemented_SHA_without_leaf7 (hw : cpu) (r0 : cpuid_regs) :
  __get_cpuid_max hw 0 < CPUID_LEAF ->
  has_flag (implemented hw r0) SHA = nonzero (Z.land (ebx r0) bit_SHA).
Proof.
  intro Hmax. rewrite implemented_SHA_test.
  now rewrite leaf7_unsupported_keeps_locals.
Qed.

End ProbeFacts.

(** C3 (the code does otherwise): on a processor without leaf 7 the first
    query reports failure and leaves the locals as they were, and the probe
    tests them all the same.  With bit 29 of the stale [b] set, the probe
    reports SHA on a processor that has none, the result is not [NONE], and
    the SHA kernel is selected; with zeroed locals the same processor
    yields a different mask. *)
Theorem implemented_reads_stale_locals {F : IMPL_flags} (ok : IMPL_flags_ok F) :
  fst (__get_cpuid_count cpu_leaf1_only CPUID_LEAF 0 stale_regs) = 0 /\
  implemented cpu_leaf1_only stale_regs = impl_or (impl_or NONE SHA) SSE /\
  implemented cpu_leaf1_only stale_regs <> NONE /\
  implemented cpu_leaf1_only stale_regs <> implemented cpu_leaf1_only zero_regs /\
  best_sha256_implementation cpu_leaf1_only stale_regs = sha256_shani.
Proof.
  assert (Hs : implemented cpu_leaf1_only stale_regs = impl_or (impl_or NONE SHA) SSE)
    by reflexivity.
  assert (Hz : implemented cpu_leaf1_only zero_regs = impl_or NONE SSE)
    by reflexivity.
  assert (Hsha : has_flag (implemented cpu_leaf1_only stale_regs) SHA = true).
  { rewrite Hs, has_flag_or_other.
    - apply has_flag_or_same, SHA_set.
    - rewrite Z.land_comm. apply SHA_SSE. }
  assert (Hno : has_flag (implemented cpu_leaf1_only zero_regs) SHA = false).
  { rewrite Hz, has_flag_or_other.
    - apply has_flag_false. reflexivity.
    - rewrite Z.land_comm. apply SHA_SSE. }
  split; [ reflexivity | split; [ exact Hs | split; [ | split ] ] ].
  - intro H0. rewrite H0 in Hsha. discriminate Hsha.
  - intro He. rewrite He, Hno in Hsha. discriminate Hsha.
  - unfold best_sha256_implementation, select. cbv zeta. now rewrite Hsha.
Qed.

Lemma implemented_reads_stale_locals_witness :
  @implemented consecutive_flags cpu_leaf1_only stale_regs <> NONE.
Proof.
  apply (proj1 (proj2 (proj2
           (@implemented_reads_stale_locals consecutive_flags consecutive_flags_ok)))).
Defined.

(** ** The fallback *)

(** C4: when none of the flags SHA, AVX2 and AVX is present the policy
    returns [sha256_sse]; with the single-block routine requiring no
    extension, as the spec has it, that kernel requires none and runs on
    every target, whatever flags the target lacks. *)
Theorem fallback_requires_no_extension {F : IMPL_flags} (caps : IMPL) :
  has_flag caps SHA = false ->
  has_flag caps AVX2 = false ->
  has_flag caps AVX = false ->
  select caps = sha256_sse /\
  required_extension (select caps) = NONE /\
  forall target : IMPL, runs_on target (select caps) = true.
Proof.
  intros H1 H2 H3.
  assert (Hs : select caps = sha256_sse).
  { unfold select. now rewrite H1, H2, H3. }
  rewrite Hs. repeat split.
  intro target. unfold runs_on, required_extension, sha256_1_avx_requires,
    impl_and, NONE.
  rewrite Z.land_0_r. reflexivity.
Qed.

Lemma fallback_requires_no_extension_witness :
  @select consecutive_flags 1 = sha256_sse /\
  @required_extension consecutive_flags (@select consecutive_flags 1) = NONE /\
  @runs_on consecutive_flags NONE (@select consecutive_flags 1) = true.
Proof.
  destruct (@fallback_requires_no_extension consecutive_flags 1
              eq_refl eq_refl eq_refl) as (Hs & Hr & Hrun).
  exact (conj Hs (conj Hr (Hrun NONE))).
Defined.

(** ** The SSE flag and selection *)

(** C9: the SSE flag has no part in selection.  Two capability sets that
    agree once SSE is added to both select the same kernel; in particular
    adding SSE to a set changes nothing, and when SHA, AVX2 and AVX are
    absent the fallback is returned with SSE and without it. *)
Theorem select_ignores_SSE {F : IMPL_flags} (ok : IMPL_flags_ok F) :
  (forall caps1 caps2 : IMPL,
      impl_or caps1 SSE = impl_or caps2 SSE -> select caps1 = select caps2) /\
  (forall caps : IMPL, select (impl_or caps SSE) = select caps) /\
  (forall caps : IMPL,
      has_flag caps SHA = false -> has_flag caps AVX2 = false ->
      has_flag caps AVX = false ->
      select caps = sha256_sse /\ select (impl_or caps SSE) = sha256_sse).
Proof.
  assert (Hadd : forall caps : IMPL, select (impl_or caps SSE) = select caps).
  { intro caps. unfold select.
    rewrite !has_flag_or_other; [ reflexivity | | | ];
      rewrite Z.land_comm; [ apply AVX_SSE | apply AVX2_SSE | apply SHA_SSE ]. }
  split; [ | split ].
  - intros caps1 caps2 He.
    rewrite <- (Hadd caps1), <- (Hadd caps2), He. reflexivity.
  - exact Hadd.
  - intros caps H1 H2 H3.
    assert (Hs : select caps = sha256_sse).
    { unfold select. now rewrite H1, H2, H3. }
    split; [ exact Hs | now rewrite Hadd ].
Qed.

Lemma select_ignores_SSE_witness :
  @select consecutive_flags 6 = @select consecutive_flags 7.
Proof.
  apply (proj1 (@select_ignores_SSE consecutive_flags consecutive_flags_ok) 6 7).
  reflexivity.
Defined.

(** ** The constructor *)

Section ConstructorFacts.
Context {F : IMPL_flags} (ok : IMPL_flags_ok F).

Lemma single_flags_set (f : IMPL) : In f single_flags -> f <> NONE.
Proof.
  simpl. intros [<- | [<- | [<- | [<- | []]]]];
    [ apply SHA_set | apply AVX2_set | apply AVX_set | apply SSE_set ].
Qed.

Lemma single_flags_disjoint (f g : IMPL) :
  In f single_flags -> In g single_flags -> f <> g -> Z.land f g = 0.
Proof.
  pose proof SHA_AVX2. pose proof SHA_AVX. pose proof SHA_SSE.
  pose proof AVX2_AVX. pose proof AVX2_SSE. pose proof AVX_SSE.
  simpl.
  intros [<- | [<- | [<- | [<- | []]]]] [<- | [<- | [<- | [<- | []]]]] Hne;
    try congruence; rewrite Z.land_comm; assumption.
Qed.

Lemma or_two_flags_not_single (f g h : IMPL) :
  In f single_flags -> In g single_flags -> f <> g ->
  In h single_flags -> impl_or f g <> h.
Proof.
  intros Hf Hg Hne Hh.
  apply or_two_flags_neq; try now apply single_flags_set.
  destruct (Z.eq_dec f h) as [-> | Hfh].
  - right. apply single_flags_disjoint; auto.
  - left. apply single_flags_disjoint; auto.
Qed.

Lemma Hasher_new_default (hw : cpu) (r0 : cpuid_regs) (impl : IMPL) :
  (forall h, In h single_flags -> impl <> h) ->
  Hasher_new hw r0 impl =
  {| _hash_64b_blocks := best_sha256_implementation hw r0 |}.
Proof.
  intro Hn. unfold Hasher_new.
  assert (H1 : (impl =? SHA) = false) by (apply Z.eqb_neq, Hn; simpl; auto).
  assert (H2 : (impl =? AVX2) = false) by (apply Z.eqb_neq, Hn; simpl; auto).
  assert (H3 : (impl =? AVX) = false) by (apply Z.eqb_neq, Hn; simpl; auto).
  assert (H4 : (impl =? SSE) = false) by (apply Z.eqb_neq, Hn; simpl; auto).
  now rewrite H1, H2, H3, H4.
Qed.

End ConstructorFacts.

(** C10: the constructor binds one kernel for every argument, and an
    argument that is not exactly one of SHA, AVX2, AVX and SSE takes the
    default branch, which binds what the probe and the policy choose: so
    does [NONE], and so does the union of any two different flags, such as
    SHA|AVX2. *)
Theorem Hasher_new_default_branch {F : IMPL_flags} (ok : IMPL_flags_ok F)
    (hw : cpu) (r0 : cpuid_regs) :
  (forall impl : IMPL,
      impl <> SHA -> impl <> AVX2 -> impl <> AVX -> impl <> SSE ->
      Hasher_new hw r0 impl =
      {| _hash_64b_blocks := best_sha256_implementation hw r0 |}) /\
  Hasher_new hw r0 NONE =
  {| _hash_64b_blocks := best_sha256_implementation hw r0 |} /\
  Hasher_new hw r0 (impl_or SHA AVX2) =
  {| _hash_64b_blocks := best_sha256_implementation hw r0 |} /\
  (forall f g : IMPL,
      In f single_flags -> In g single_flags -> f <> g ->
      Hasher_new hw r0 (impl_or f g) =
      {| _hash_64b_blocks := best_sha256_implementation hw r0 |}) /\
  (forall impl : IMPL,
      exists! k : SHA256_hasher, _hash_64b_blocks (Hasher_new hw r0 impl) = k).
Proof.
  assert (Hpair : forall f g : IMPL,
             In f single_flags -> In g single_flags -> f <> g ->
             Hasher_new hw r0 (impl_or f g) =
             {| _hash_64b_blocks := best_sha256_implementation hw r0 |}).
  { intros f g Hf Hg Hne. apply Hasher_new_default.
    intros h Hh. now apply or_two_flags_not_single. }
  split; [ | split; [ | split; [ | split ] ] ].
  - intros impl H1 H2 H3 H4. apply Hasher_new_default.
    simpl. intros h [<- | [<- | [<- | [<- | []]]]]; assumption.
  - apply Hasher_new_default.
    intros h Hh He. apply (single_flags_set ok h Hh). now symmetry.
  - apply Hpair; simpl; auto.
    intro He. pose proof SHA_AVX2 as Hd. rewrite He, Z.land_diag in Hd.
    now apply AVX2_set.
  - exact Hpair.
  - intro impl. exists (_hash_64b_blocks (Hasher_new hw r0 impl)).
    split; [ reflexivity | intros k Hk; exact Hk ].
Qed.

(** The combined mask 3 (SSE|AVX) is not a case of the switch: on a processor
    with AVX2 the constructor binds the 8-way kernel, not one named by the
    argument. *)
Lemma Hasher_new_default_branch_witness :
  @Hasher_new consecutive_flags (cpu_of 7 bit_AVX2 bit_AVX) zero_regs 3 =
  {| _hash_64b_blocks := sha256_8_avx2 |}.
Proof.
  apply (proj1 (@Hasher_new_default_branch consecutive_flags consecutive_flags_ok
                  (cpu_of 7 bit_AVX2 bit_AVX) zero_regs) 3);
    vm_compute; discriminate.
Defined.

(** ** The algebra of capability sets *)

(** C8: capability sets with bitwise OR are a commutative monoid whose
    identity is [NONE]; in particular OR-ing [NONE] to the probe's result
    gives the probe's result back.  The flag tests are independent: adding
    SHA to a set makes the SHA test hold and leaves the AVX2 test as it was,
    and for each of the four combinations of the two tests there is a
    processor on which the probe reports exactly that combination. *)
Theorem impl_or_commutative_monoid {F : IMPL_flags} (ok : IMPL_flags_ok F) :
  (forall a b c : IMPL, impl_or a (impl_or b c) = impl_or (impl_or a b) c) /\
  (forall a b : IMPL, impl_or a b = impl_or b a) /\
  (forall caps : IMPL, impl_or caps NONE = caps /\ impl_or NONE caps = caps) /\
  (forall (hw : cpu) (r0 : cpuid_regs),
      impl_or (implemented hw r0) NONE = implemented hw r0) /\
  (forall caps : IMPL,
      has_flag (impl_or caps SHA) SHA = true /\
      has_flag (impl_or caps SHA) AVX2 = has_flag caps AVX2) /\
  (forall sha avx2 : bool, exists (hw : cpu) (r0 : cpuid_regs),
      has_flag (implemented hw r0) SHA = sha /\
      has_flag (implemented hw r0) AVX2 = avx2).
Proof.
  split; [ | split; [ | split; [ | split; [ | split ] ] ] ].
  - intros a b c. apply Z.lor_assoc.
  - intros a b. apply Z.lor_comm.
  - intro caps. split; [ apply Z.lor_0_r | apply Z.lor_0_l ].
  - intros hw r0. apply Z.lor_0_r.
  - intro caps. split.
    + apply has_flag_or_same, SHA_set.
    + apply has_flag_or_other, SHA_AVX2.
  - pose proof has_flag_NONE as Hnone.
    intros [ | ] [ | ].
    + exists (cpu_of 7 (Z.lor bit_SHA bit_AVX2) 0), zero_regs.
      change (implemented (cpu_of 7 (Z.lor bit_SHA bit_AVX2) 0) zero_regs)
        with (impl_or (impl_or NONE SHA) AVX2).
      split.
      * rewrite has_flag_or_other by (rewrite Z.land_comm; apply SHA_AVX2).
        apply has_flag_or_same, SHA_set.
      * apply has_flag_or_same, AVX2_set.
    + exists (cpu_of 7 bit_SHA 0), zero_regs.
      change (implemented (cpu_of 7 bit_SHA 0) zero_regs)
        with (impl_or NONE SHA).
      split.
      * apply has_flag_or_same, SHA_set.
      * rewrite has_flag_or_other by apply SHA_AVX2. apply Hnone.
    + exists (cpu_of 7 bit_AVX2 0), zero_regs.
      change (implemented (cpu_of 7 bit_AVX2 0) zero_regs)
        with (impl_or NONE AVX2).
      split.
      * rewrite has_flag_or_other by (rewrite Z.land_comm; apply SHA_AVX2).
        apply Hnone.
      * apply has_flag_or_same, AVX2_set.
    + exists (cpu_of 7 0 0), zero_regs.
      change (implemented (cpu_of 7 0 0) zero_regs) with NONE.
      split; apply Hnone.
Qed.

Lemma impl_or_commutative_monoid_witness :
  impl_or 12 NONE = 12 /\ impl_or NONE 12 = 12.
Proof.
  apply (proj1 (proj2 (proj2
           (@impl_or_commutative_monoid consecutive_flags consecutive_flags_ok))) 12).
Defined.

(** ** Loads and stores *)

Lemma load_length (m : mem) (p : Z) (n : nat) : length (load m p n) = n.
Proof. unfold load. now rewrite length_map, length_seq. Qed.

Lemma load_nth (m : mem) (p : Z) (n k : nat) :
  (k < n)%nat -> nth k (load m p n) x00 = m (p + Z.of_nat k).
Proof.
  intro Hk. unfold load.
  rewrite (nth_indep _ x00 ((fun j => m (p + Z.of_nat j)) 0%nat))
    by now rewrite length_map, length_seq.
  rewrite (map_nth (fun j => m (p + Z.of_nat j))).
  now rewrite seq_nth.
Qed.

Lemma load_ext (m1 m2 : mem) (p : Z) (n : nat) :
  (forall a, p <= a < p + Z.of_nat n -> m1 a = m2 a) ->
  load m1 p n = load m2 p n.
Proof.
  intro Hag. unfold load. apply map_ext_in.
  intros k Hk. apply in_seq in Hk. apply Hag. lia.
Qed.

Lemma store_outside (m : mem) (p : Z) (bs : list byte) (a : Z) :
  a < p \/ p + Z.of_nat (length bs) <= a -> store m p bs a = m a.
Proof.
  intro Ha. unfold store.
  destruct (p <=? a) eqn:E1; [ | reflexivity ].
  destruct (a <? p + Z.of_nat (length bs)) eqn:E2; [ | reflexivity ].
  apply Z.leb_le in E1. apply Z.ltb_lt in E2. lia.
Qed.

Lemma load_store_same (m : mem) (p : Z) (bs : list byte) :
  load (store m p bs) p (length bs) = bs.
Proof.
  apply (nth_ext _ _ x00 x00).
  - apply load_length.
  - intros k Hk. rewrite load_length in Hk.
    rewrite load_nth by assumption. unfold store.
    replace (p <=? p + Z.of_nat k) with true by (symmetry; apply Z.leb_le; lia).
    replace (p + Z.of_nat k <? p + Z.of_nat (length bs)) with true
      by (symmetry; apply Z.ltb_lt; lia).
    simpl. f_equal. lia.
Qed.

(** ** The one-block loop *)

Section BatchFacts.
Variable digest : list byte -> list byte.
Hypothesis digest_length : forall blk, length (digest blk) = 32%nat.

(** The loop writes inside [output, output + 32 * blocks) only. *)
Lemma sha256_sse_loop_outside (blocks : nat) :
  forall (m : mem) (output input a : Z),
    a < output \/ output + 32 * Z.of_nat blocks <= a ->
    sha256_sse_loop digest m output input blocks a = m a.
Proof.
  induction blocks as [ | blocks IH ]; intros m output input a Ha.
  - reflexivity.
  - cbn [sha256_sse_loop]. cbv zeta. unfold BYTES_PER_CHUNK.
    rewrite IH by lia. unfold sha256_1_avx.
    apply store_outside. rewrite digest_length. lia.
Qed.

(** One call of the single-block routine, read back. *)
Lemma sha256_1_avx_result (m : mem) (output input : Z) :
  load (sha256_1_avx digest m output input) output 32 =
  digest (load m input 64).
Proof.
  unfold sha256_1_avx.
  rewrite <- (digest_length (load m input 64)) at 2.
  apply load_store_same.
Qed.

(** When no digest lands on a block still to be read, block [i] of the
    output holds the digest of block [i] of the input as it was before the
    call. *)
Lemma sha256_sse_loop_block (blocks : nat) :
  forall (m : mem) (output input : Z) (i : nat),
    (i < blocks)%nat ->
    spares_later_inputs output input (Z.of_nat blocks) ->
    load (sha256_sse_loop digest m output input blocks)
         (output + 32 * Z.of_nat i) 32 =
    digest (load m (input + 64 * Z.of_nat i) 64).
Proof.
  induction blocks as [ | blocks IH ]; intros m output input i Hi Hsp.
  - lia.
  - cbn [sha256_sse_loop]. cbv zeta. unfold BYTES_PER_CHUNK.
    destruct i as [ | i ].
    + rewrite Z.mul_0_r, !Z.add_0_r.
      rewrite <- (sha256_1_avx_result m output input).
      apply load_ext. intros a Ha.
      apply sha256_sse_loop_outside. lia.
    + replace (output + 32 * Z.of_nat (S i))
        with (output + 32 + 32 * Z.of_nat i) by lia.
      rewrite IH.
      * f_equal.
        replace (input + 2 * 32 + 64 * Z.of_nat i)
          with (input + 64 * Z.of_nat (S i)) by lia.
        apply load_ext. intros a Ha. unfold sha256_1_avx.
        apply store_outside. rewrite digest_length.
        specialize (Hsp 0 (Z.of_nat (S i))). lia.
      * lia.
      * intros j k Hjk Hk. specialize (Hsp (j + 1) (k + 1)). lia.
Qed.

End BatchFacts.

Lemma disjoint_spares_later_inputs (output input blocks : Z) :
  output + 32 * blocks <= input \/ input + 64 * blocks <= output ->
  spares_later_inputs output input blocks.
Proof. intros Hsep j k Hjk Hk. lia. Qed.

Lemma in_place_spares_later_inputs (p blocks : Z) :
  spares_later_inputs p p blocks.
Proof. intros j k Hjk Hk. lia. Qed.

Lemma first_half_length (blk : list byte) : length (first_half blk) = 32%nat.
Proof.
  unfold first_half. rewrite length_firstn, length_app, repeat_length. lia.
Qed.

(** C5, as stated, fails when the output buffer reaches into input blocks
    still to be read: with the output pointer at the second input block, the
    digest of the first block is written over the second block before it is
    hashed, and the second output is not what hashing the second block alone
    gives. *)
Lemma sha256_sse_batch_overlap_counterexample :
  load (Hasher_sha256_sse first_half ramp_mem 64 0 2) (64 + 1 * 32) 32 <>
  load (Hasher_sha256_sse first_half ramp_mem 5000 (0 + 1 * 64) 1) 5000 32.
Proof. vm_compute. discriminate. Qed.

(** C5 (amended): with a single-block routine that writes a 32-byte digest
    of the 64 bytes it reads, and buffers laid out so that no digest is
    written over an input block still to be read -- disjoint buffers, or
    hashing in place -- one call of [sha256_sse] on [blocks] blocks leaves at
    output offset [i * 32], for every [i] below [blocks], the bytes that a
    call on one block at input offset [i * 64] writes to its own output: the
    digest of that block alone. *)
Theorem sha256_sse_batch_independence
    (digest : list byte -> list byte)
    (digest_length : forall blk, length (digest blk) = 32%nat)
    (m : mem) (output input : Z) (blocks i : N) (single_output : Z) :
  (i < blocks)%N ->
  spares_later_inputs output input (Z.of_N blocks) ->
  load (Hasher_sha256_sse digest m output input blocks)
       (output + Z.of_N i * 32) 32 =
  load (Hasher_sha256_sse digest m single_output (input + Z.of_N i * 64) 1)
       single_output 32 /\
  load (Hasher_sha256_sse digest m output input blocks)
       (output + Z.of_N i * 32) 32 =
  digest (load m (input + Z.of_N i * 64) 64).
Proof.
  intros Hi Hsp.
  assert (Hbatch :
            load (Hasher_sha256_sse digest m output input blocks)
                 (output + Z.of_N i * 32) 32 =
            digest (load m (input + Z.of_N i * 64) 64)).
  { unfold Hasher_sha256_sse.
    replace (output + Z.of_N i * 32)
      with (output + 32 * Z.of_nat (N.to_nat i)) by lia.
    replace (input + Z.of_N i * 64)
      with (input + 64 * Z.of_nat (N.to_nat i)) by lia.
    apply sha256_sse_loop_block; [ exact digest_length | lia | ].
    now rewrite N_nat_Z. }
  split; [ | exact Hbatch ].
  rewrite Hbatch. symmetry.
  change (Hasher_sha256_sse digest m single_output (input + Z.of_N i * 64) 1)
    with (sha256_1_avx digest m single_output (input + Z.of_N i * 64)).
  now apply sha256_1_avx_result.
Qed.

(** Three blocks at address 0 hashed to address 1000: the second digest is
    what a call on the second block alone writes at address 5000. *)
Lemma sha256_sse_batch_independence_witness :
  load (Hasher_sha256_sse first_half ramp_mem 1000 0 3) (1000 + 1 * 32) 32 =
  load (Hasher_sha256_sse first_half ramp_mem 5000 (0 + 1 * 64) 1) 5000 32.
Proof.
  apply (proj1 (sha256_sse_batch_independence first_half first_half_length
                  ramp_mem 1000 0 3 1 5000 ltac:(reflexivity)
                  ltac:(intros j k Hjk Hk; right; lia))).
Defined.

(** C6: a call of [sha256_sse] with a block count of zero returns and leaves
    memory, and so every byte of the output buffer, as it was; the same holds
    for a request forwarded by a Hasher bound to that kernel, and for a
    Hasher bound to any kernel as long as the external kernels do nothing on
    zero blocks. *)
Theorem sha256_sse_zero_blocks
    (digest : list byte -> list byte)
    (ext_sha256_shani ext_sha256_8_avx2 ext_sha256_4_avx : mem -> Z -> Z -> N -> mem)
    (m : mem) (output input : Z) :
  Hasher_sha256_sse digest m output input 0 = m /\
  (forall (p : Z) (n : nat),
      load (Hasher_sha256_sse digest m output input 0) p n = load m p n) /\
  hash_pairs digest ext_sha256_shani ext_sha256_8_avx2 ext_sha256_4_avx
    {| _hash_64b_blocks := sha256_sse |} m output input 0 =
  ({| _hash_64b_blocks := sha256_sse |}, m) /\
  ((forall m' output' input', ext_sha256_shani m' output' input' 0%N = m') ->
   (forall m' output' input', ext_sha256_8_avx2 m' output' input' 0%N = m') ->
   (forall m' output' input', ext_sha256_4_avx m' output' input' 0%N = m') ->
   forall h : Hasher,
     hash_pairs digest ext_sha256_shani ext_sha256_8_avx2 ext_sha256_4_avx
       h m output input 0 = (h, m)).
Proof.
  split; [ reflexivity | split; [ reflexivity | split; [ reflexivity | ] ] ].
  intros H1 H2 H3 [[ | | | ]]; unfold hash_pairs; simpl; f_equal; auto.
Qed.

Lemma sha256_sse_zero_blocks_witness :
  hash_pairs first_half (fun m _ _ _ => m) (fun m _ _ _ => m) (fun m _ _ _ => m)
    {| _hash_64b_blocks := sha256_8_avx2 |} ramp_mem 1000 0 0 =
  ({| _hash_64b_blocks := sha256_8_avx2 |}, ramp_mem).
Proof.
  apply (proj2 (proj2 (proj2
           (sha256_sse_zero_blocks first_half
              (fun m _ _ _ => m) (fun m _ _ _ => m) (fun m _ _ _ => m)
              ramp_mem 1000 0)))
           (fun _ _ _ => eq_refl) (fun _ _ _ => eq_refl) (fun _ _ _ => eq_refl)).
Defined.

(** ** The life of a Hasher *)

Section LifeFacts.
Variable digest : list byte -> list byte.
Variable ext_sha256_shani : mem -> Z -> Z -> N -> mem.
Variable ext_sha256_8_avx2 : mem -> Z -> Z -> N -> mem.
Variable ext_sha256_4_avx : mem -> Z -> Z -> N -> mem.
Context {F : IMPL_flags}.
Variable hw : cpu.

(** No step leaves the bound state or changes the Hasher. *)
Lemma steps_keep_binding (es : list event) :
  forall (h : Hasher) (m : mem) (st : Dispatcher * mem),
    steps digest ext_sha256_shani ext_sha256_8_avx2 ext_sha256_4_avx hw
      (Bound h, m) es st ->
    fst st = Bound h.
Proof.
  induction es as [ | e es IH ]; intros h m st Hs.
  - inversion Hs; subst. reflexivity.
  - inversion Hs as [ | st0 e0 st1 es0 st2 Hstep Hrest ]; subst.
    inversion Hstep; subst. simpl in Hrest.
    exact (IH _ _ _ Hrest).
Qed.

(** Every list of requests can be served, and it is served by the kernel
    the Hasher holds. *)
Lemma steps_forward (cs : list request) :
  forall (h : Hasher) (m : mem),
    steps digest ext_sha256_shani ext_sha256_8_avx2 ext_sha256_4_avx hw
      (Bound h, m) (map request_event cs)
      (Bound h,
       forward digest ext_sha256_shani ext_sha256_8_avx2 ext_sha256_4_avx
         (_hash_64b_blocks h) m cs).
Proof.
  induction cs as [ | [[output input] blocks] cs IH ]; intros h m.
  - constructor.
  - simpl. eapply steps_cons.
    + apply step_hash_pairs.
    + simpl. apply IH.
Qed.

End LifeFacts.

(** C7: once the constructor has run, the Hasher stays bound to the kernel
    the constructor chose: in every state reached from construction by any
    sequence of events the Dispatcher is bound to that same Hasher, never
    unbound; and every sequence of requests is served, each one forwarded to
    that kernel. *)
Theorem hasher_binding_fixed
    (digest : list byte -> list byte)
    (ext_sha256_shani ext_sha256_8_avx2 ext_sha256_4_avx : mem -> Z -> Z -> N -> mem)
    {F : IMPL_flags} (hw : cpu) (impl : IMPL) (r0 : cpuid_regs) (m : mem) :
  (forall (es : list event) (st : Dispatcher * mem),
      steps digest ext_sha256_shani ext_sha256_8_avx2 ext_sha256_4_avx hw
        (Unbound, m) (Construct impl r0 :: es) st ->
      fst st = Bound (Hasher_new hw r0 impl)) /\
  (forall cs : list request,
      steps digest ext_sha256_shani ext_sha256_8_avx2 ext_sha256_4_avx hw
        (Unbound, m) (Construct impl r0 :: map request_event cs)
        (Bound (Hasher_new hw r0 impl),
         forward digest ext_sha256_shani ext_sha256_8_avx2 ext_sha256_4_avx
           (_hash_64b_blocks (Hasher_new hw r0 impl)) m cs)).
Proof.
  split.
  - intros es st Hs.
    inversion Hs as [ | st0 e0 st1 es0 st2 Hstep Hrest ]; subst.
    inversion Hstep; subst.
    exact (steps_keep_binding _ _ _ _ _ _ _ _ _ Hrest).
  - intro cs. eapply steps_cons.
    + apply step_construct.
    + apply steps_forward.
Qed.

(** A Hasher built from the mask 3 on a processor with AVX2 and AVX, then
    asked to hash two blocks. *)
Lemma hasher_binding_fixed_witness :
  fst (Bound (@Hasher_new consecutive_flags (cpu_of 7 bit_AVX2 bit_AVX) zero_regs 3),
       forward first_half (fun m _ _ _ => m) (fun m _ _ _ => m) (fun m _ _ _ => m)
         (_hash_64b_blocks
            (@Hasher_new consecutive_flags (cpu_of 7 bit_AVX2 bit_AVX) zero_regs 3))
         ramp_mem [ (1000, 0, 2%N) ]) =
  Bound (@Hasher_new consecutive_flags (cpu_of 7 bit_AVX2 bit_AVX) zero_regs 3).
Proof.
  apply (proj1 (@hasher_binding_fixed first_half
                  (fun m _ _ _ => m) (fun m _ _ _ => m) (fun m _ _ _ => m)
                  consecutive_flags (cpu_of 7 bit_AVX2 bit_AVX) 3 zero_regs ramp_mem)
               [ Hash_pairs 1000 0 2 ]).
  apply (proj2 (@hasher_binding_fixed first_half
                  (fun m _ _ _ => m) (fun m _ _ _ => m) (fun m _ _ _ => m)
                  consecutive_flags (cpu_of 7 bit_AVX2 bit_AVX) 3 zero_regs ramp_mem)
               [ (1000, 0, 2%N) ]).
Defined.

(** * Further properties of the probe *)

Lemma has_flag_or_if_same (impl flag : IMPL) (b : bool) :
  flag <> NONE ->
  has_flag (impl_or impl (if b then flag else NONE)) flag = b || has_flag impl flag.
Proof.
  intro Hf. destruct b.
  - now apply has_flag_or_same.
  - unfold impl_or, NONE. now rewrite Z.lor_0_r.
Qed.

(** A query for leaf 1 or leaf 7 on a processor that has the leaf returns
    the registers. *)
Lemma leaf7_supported (hw : cpu) (r : cpuid_regs) :
  CPUID_LEAF <= __get_cpuid_max hw 0 ->
  __get_cpuid_count hw CPUID_LEAF 0 r = (1, hw CPUID_LEAF 0).
Proof.
  intro Hmax. unfold __get_cpuid_count.
  change (Z.land CPUID_LEAF 0x80000000) with 0. cbv zeta.
  unfold CPUID_LEAF in *.
  replace (__get_cpuid_max hw 0 =? 0) with false by (symmetry; apply Z.eqb_neq; lia).
  replace (__get_cpuid_max hw 0 <? 7) with false by (symmetry; apply Z.ltb_ge; lia).
  reflexivity.
Qed.

Lemma leaf1_supported (hw : cpu) (r : cpuid_regs) :
  1 <= __get_cpuid_max hw 0 ->
  __get_cpuid hw 1 r = (1, hw 1 0).
Proof.
  intro Hmax. unfold __get_cpuid, __get_cpuid_count.
  change (Z.land 1 0x80000000) with 0. cbv zeta.
  replace (__get_cpuid_max hw 0 =? 0) with false by (symmetry; apply Z.eqb_neq; lia).
  replace (__get_cpuid_max hw 0 <? 1) with false by (symmetry; apply Z.ltb_ge; lia).
  reflexivity.
Qed.

Lemma leaf1_unsupported_keeps_locals (hw : cpu) (r : cpuid_regs) :
  __get_cpuid_max hw 0 < 1 ->
  __get_cpuid hw 1 r = (0, r).
Proof.
  intro Hmax. unfold __get_cpuid, __get_cpuid_count.
  change (Z.land 1 0x80000000) with 0. cbv zeta.
  apply Z.ltb_lt in Hmax. rewrite Hmax, orb_true_r. reflexivity.
Qed.

Section ProbeTests.
Context {F : IMPL_flags} (ok : IMPL_flags_ok F).

Lemma implemented_AVX2_test (hw : cpu) (r0 : cpuid_regs) :
  has_flag (implemented hw r0) AVX2 =
  nonzero (Z.land (ebx (snd (__get_cpuid_count hw CPUID_LEAF 0 r0))) bit_AVX2).
Proof.
  rewrite implemented_eq. cbv zeta.
  rewrite has_flag_or_if by (rewrite Z.land_comm; apply AVX2_SSE).
  rewrite has_flag_or_if by (rewrite Z.land_comm; apply AVX2_AVX).
  rewrite has_flag_or_if_same by apply AVX2_set.
  rewrite has_flag_or_if by apply SHA_AVX2.
  now rewrite has_flag_NONE, orb_false_r.
Qed.

Lemma implemented_AVX_test (hw : cpu) (r0 : cpuid_regs) :
  has_flag (implemented hw r0) AVX =
  nonzero (Z.land
             (ecx (snd (__get_cpuid hw 1 (snd (__get_cpuid_count hw CPUID_LEAF 0 r0)))))
             bit_AVX).
Proof.
  rewrite implemented_eq. cbv zeta.
  rewrite has_flag_or_if by (rewrite Z.land_comm; apply AVX_SSE).
  rewrite has_flag_or_if_same by apply AVX_set.
  rewrite has_flag_or_if by apply AVX2_AVX.
  rewrite has_flag_or_if by apply SHA_AVX.
  now rewrite has_flag_NONE, orb_false_r.
Qed.

Lemma implemented_SSE_test (hw : cpu) (r0 : cpuid_regs) :
  has_flag (implemented hw r0) SSE =
  nonzero (Z.land
             (ecx (snd (__get_cpuid hw 1 (snd (__get_cpuid_count hw CPUID_LEAF 0 r0)))))
             bit_SSE3).
Proof.
  rewrite implemented_eq. cbv zeta.
  rewrite has_flag_or_if_same by apply SSE_set.
  rewrite has_flag_or_if by apply AVX_SSE.
  rewrite has_flag_or_if by apply AVX2_SSE.
  rewrite has_flag_or_if by apply SHA_SSE.
  now rewrite has_flag_NONE, orb_false_r.
Qed.

End ProbeTests.

(** X1: on a processor that has CPUID leaf 7 the probe is exact and does not
    depend on what its locals held: each flag is reported when and only when
    the processor sets the feature bit the code tests for it -- bits 29 and
    5 of [ebx] of leaf 7 for SHA and AVX2, bits 28 and 0 of [ecx] of leaf 1
    for AVX and SSE. *)
Theorem implemented_exact_with_leaf7 {F : IMPL_flags} (ok : IMPL_flags_ok F)
    (hw : cpu) (r0 : cpuid_regs) :
  CPUID_LEAF <= __get_cpuid_max hw 0 ->
  has_flag (implemented hw r0) SHA = nonzero (Z.land (ebx (hw 7 0)) bit_SHA) /\
  has_flag (implemented hw r0) AVX2 = nonzero (Z.land (ebx (hw 7 0)) bit_AVX2) /\
  has_flag (implemented hw r0) AVX = nonzero (Z.land (ecx (hw 1 0)) bit_AVX) /\
  has_flag (implemented hw r0) SSE = nonzero (Z.land (ecx (hw 1 0)) bit_SSE3) /\
  forall r0' : cpuid_regs, implemented hw r0' = implemented hw r0.
Proof.
  intro Hmax.
  assert (H1 : 1 <= __get_cpuid_max hw 0) by (unfold CPUID_LEAF in Hmax; lia).
  repeat split.
  - rewrite (implemented_SHA_test ok), leaf7_supported by assumption. reflexivity.
  - rewrite (implemented_AVX2_test ok), leaf7_supported by assumption. reflexivity.
  - rewrite (implemented_AVX_test ok), leaf1_supported by assumption. reflexivity.
  - rewrite (implemented_SSE_test ok), leaf1_supported by assumption. reflexivity.
  - intro r0'. unfold implemented.
    rewrite !leaf7_supported by assumption. reflexivity.
Qed.

Lemma implemented_exact_with_leaf7_witness :
  @has_flag (@implemented consecutive_flags (cpu_of 13 bit_AVX2 bit_SSE3) stale_regs)
     (@SHA consecutive_flags) = false.
Proof.
  apply (proj1 (@implemented_exact_with_leaf7 consecutive_flags consecutive_flags_ok
                  (cpu_of 13 bit_AVX2 bit_SSE3) stale_regs ltac:(vm_compute; discriminate))).
Defined.

(** X2: on a processor that has CPUID leaf 7, automatic selection never
    returns a kernel the processor does not report: the SHA kernel is
    returned only with feature bit SHA set, the 8-way kernel only with AVX2
    set, the 4-way kernel only with AVX set, and the fallback exactly when
    all three bits are clear. *)
Theorem best_sha256_implementation_reported {F : IMPL_flags} (ok : IMPL_flags_ok F)
    (hw : cpu) (r0 : cpuid_regs) :
  CPUID_LEAF <= __get_cpuid_max hw 0 ->
  match best_sha256_implementation hw r0 with
  | sha256_shani => nonzero (Z.land (ebx (hw 7 0)) bit_SHA) = true
  | sha256_8_avx2 => nonzero (Z.land (ebx (hw 7 0)) bit_AVX2) = true
  | sha256_4_avx => nonzero (Z.land (ecx (hw 1 0)) bit_AVX) = true
  | sha256_sse =>
      nonzero (Z.land (ebx (hw 7 0)) bit_SHA) = false /\
      nonzero (Z.land (ebx (hw 7 0)) bit_AVX2) = false /\
      nonzero (Z.land (ecx (hw 1 0)) bit_AVX) = false
  end.
Proof.
  intro Hmax.
  assert (H1 : 1 <= __get_cpuid_max hw 0) by (unfold CPUID_LEAF in Hmax; lia).
  pose proof (implemented_SHA_test ok hw r0) as Hsha.
  pose proof (implemented_AVX2_test ok hw r0) as Havx2.
  pose proof (implemented_AVX_test ok hw r0) as Havx.
  rewrite leaf7_supported in Hsha, Havx2, Havx by assumption.
  rewrite leaf1_supported in Havx by assumption.
  cbn [snd] in Hsha, Havx2, Havx.
  change CPUID_LEAF with 7 in Hsha, Havx2.
  unfold best_sha256_implementation. cbv zeta.
  destruct (select_cases (implemented hw r0))
    as [[T1 ->] | [(T1 & T2 & ->) | [(T1 & T2 & T3 & ->) | (T1 & T2 & T3 & ->)]]].
  - now rewrite <- Hsha.
  - now rewrite <- Havx2.
  - now rewrite <- Havx.
  - rewrite <- Hsha, <- Havx2, <- Havx. auto.
Qed.

Lemma best_sha256_implementation_reported_witness :
  nonzero (Z.land (ebx (cpu_of 13 bit_AVX2 bit_AVX 7 0)) bit_AVX2) = true.
Proof.
  apply (@best_sha256_implementation_reported consecutive_flags consecutive_flags_ok
           (cpu_of 13 bit_AVX2 bit_AVX) stale_regs ltac:(vm_compute; discriminate)).
Defined.

(** X3: on every processor without CPUID leaf 7 the SHA and AVX2 flags of
    the probe are bits 29 and 5 of what the local [b] held before the probe
    ran, whatever the processor supports.  If leaf 1 exists the AVX and SSE
    flags are still those of the processor; if it does not, they are bits
    28 and 0 of the stale [c]. *)
Theorem implemented_without_leaf7 {F : IMPL_flags} (ok : IMPL_flags_ok F)
    (hw : cpu) (r0 : cpuid_regs) :
  __get_cpuid_max hw 0 < CPUID_LEAF ->
  has_flag (implemented hw r0) SHA = nonzero (Z.land (ebx r0) bit_SHA) /\
  has_flag (implemented hw r0) AVX2 = nonzero (Z.land (ebx r0) bit_AVX2) /\
  (1 <= __get_cpuid_max hw 0 ->
   has_flag (implemented hw r0) AVX = nonzero (Z.land (ecx (hw 1 0)) bit_AVX) /\
   has_flag (implemented hw r0) SSE = nonzero (Z.land (ecx (hw 1 0)) bit_SSE3)) /\
  (__get_cpuid_max hw 0 < 1 ->
   has_flag (implemented hw r0) AVX = nonzero (Z.land (ecx r0) bit_AVX) /\
   has_flag (implemented hw r0) SSE = nonzero (Z.land (ecx r0) bit_SSE3)).
Proof.
  intro Hmax.
  split; [ | split; [ | split ] ].
  - rewrite (implemented_SHA_test ok), leaf7_unsupported_keeps_locals by assumption.
    reflexivity.
  - rewrite (implemented_AVX2_test ok), leaf7_unsupported_keeps_locals by assumption.
    reflexivity.
  - intro H1.
    rewrite (implemented_AVX_test ok), (implemented_SSE_test ok).
    rewrite !leaf1_supported by assumption. split; reflexivity.
  - intro H1.
    rewrite (implemented_AVX_test ok), (implemented_SSE_test ok).
    rewrite !leaf1_unsupported_keeps_locals by assumption.
    rewrite !leaf7_unsupported_keeps_locals by assumption. split; reflexivity.
Qed.

Lemma implemented_without_leaf7_witness :
  @has_flag (@implemented consecutive_flags (cpu_of 6 0 bit_AVX) stale_regs)
     (@SHA consecutive_flags) = true.
Proof.
  apply (proj1 (@implemented_without_leaf7 consecutive_flags consecutive_flags_ok
                  (cpu_of 6 0 bit_AVX) stale_regs ltac:(vm_compute; reflexivity))).
Defined.

(** X4: the probe never reports anything but the four flags: every bit of
    its result is a bit of SHA, AVX2, AVX or SSE, on every processor and for
    every content of the locals. *)
Theorem implemented_within_every_flag {F : IMPL_flags} (hw : cpu) (r0 : cpuid_regs) :
  impl_and (implemented hw r0) every_flag = implemented hw r0.
Proof.
  rewrite implemented_eq. cbv zeta.
  unfold impl_and, impl_or, every_flag, NONE.
  apply Z.bits_inj'. intros n _.
  destruct (nonzero (Z.land (ebx _) bit_SHA)),
           (nonzero (Z.land (ebx _) bit_AVX2)),
           (nonzero (Z.land (ecx _) bit_AVX)),
           (nonzero (Z.land (ecx _) bit_SSE3));
    rewrite ?Z.land_spec, ?Z.lor_spec, ?Z.bits_0;
    destruct (Z.testbit SHA n), (Z.testbit AVX2 n), (Z.testbit AVX n),
             (Z.testbit SSE n); reflexivity.
Qed.

(** * Further properties of the constructor and the policy *)

Lemma disjoint_flags_differ (f g : IMPL) :
  Z.land f g = 0 -> f <> NONE -> f <> g.
Proof.
  intros Hd Hf He. apply Hf. rewrite <- He, Z.land_diag in Hd. exact Hd.
Qed.

(** X5: a constructor argument that is exactly one of the four flags binds
    the kernel named by the flag without looking at the processor: the
    results hold for every processor, also one that lacks the extension. *)
Theorem Hasher_new_named_kernel {F : IMPL_flags} (ok : IMPL_flags_ok F)
    (hw : cpu) (r0 : cpuid_regs) :
  Hasher_new hw r0 SHA = {| _hash_64b_blocks := sha256_shani |} /\
  Hasher_new hw r0 AVX2 = {| _hash_64b_blocks := sha256_8_avx2 |} /\
  Hasher_new hw r0 AVX = {| _hash_64b_blocks := sha256_4_avx |} /\
  Hasher_new hw r0 SSE = {| _hash_64b_blocks := sha256_sse |}.
Proof.
  assert (N1 : (AVX2 =? SHA) = false).
  { apply Z.eqb_neq. intro He. symmetry in He. revert He.
    apply disjoint_flags_differ; [ apply SHA_AVX2 | apply SHA_set ]. }
  assert (N2 : (AVX =? SHA) = false).
  { apply Z.eqb_neq. intro He. symmetry in He. revert He.
    apply disjoint_flags_differ; [ apply SHA_AVX | apply SHA_set ]. }
  assert (N3 : (AVX =? AVX2) = false).
  { apply Z.eqb_neq. intro He. symmetry in He. revert He.
    apply disjoint_flags_differ; [ apply AVX2_AVX | apply AVX2_set ]. }
  assert (N4 : (SSE =? SHA) = false).
  { apply Z.eqb_neq. intro He. symmetry in He. revert He.
    apply disjoint_flags_differ; [ apply SHA_SSE | apply SHA_set ]. }
  assert (N5 : (SSE =? AVX2) = false).
  { apply Z.eqb_neq. intro He. symmetry in He. revert He.
    apply disjoint_flags_differ; [ apply AVX2_SSE | apply AVX2_set ]. }
  assert (N6 : (SSE =? AVX) = false).
  { apply Z.eqb_neq. intro He. symmetry in He. revert He.
    apply disjoint_flags_differ; [ apply AVX_SSE | apply AVX_set ]. }
  unfold Hasher_new.
  rewrite N1, N2, N3, N4, N5, N6, !Z.eqb_refl. repeat split.
Qed.

(** A Hasher forced to SHA on a processor that reports no extension. *)
Lemma Hasher_new_named_kernel_witness :
  @Hasher_new consecutive_flags (cpu_of 13 0 0) zero_regs (@SHA consecutive_flags) =
  {| _hash_64b_blocks := sha256_shani |}.
Proof.
  apply (proj1 (@Hasher_new_named_kernel consecutive_flags consecutive_flags_ok
                  (cpu_of 13 0 0) zero_regs)).
Defined.

(** X6: the policy looks at the bits of SHA, AVX2 and AVX only: adding to a
    capability set any bits that are outside these three flags leaves the
    selected kernel unchanged. *)
Theorem select_ignores_unlisted_bits {F : IMPL_flags} (caps extra : IMPL) :
  Z.land extra SHA = 0 ->
  Z.land extra AVX2 = 0 ->
  Z.land extra AVX = 0 ->
  select (impl_or caps extra) = select caps.
Proof.
  intros H1 H2 H3. unfold select.
  now rewrite !has_flag_or_other by assumption.
Qed.

Lemma select_ignores_unlisted_bits_witness :
  @select consecutive_flags (impl_or 4 240) = @select consecutive_flags 4.
Proof.
  apply (@select_ignores_unlisted_bits consecutive_flags 4 240); reflexivity.
Defined.

(** * Further properties of the one-block loop *)

Lemma load_S (m : mem) (p : Z) (n : nat) :
  load m p (S n) = m p :: load m (p + 1) n.
Proof.
  unfold load. cbn [seq map]. rewrite Z.add_0_r. f_equal.
  rewrite <- seq_shift, map_map. apply map_ext.
  intro k. f_equal. lia.
Qed.

Lemma load_app (m : mem) (n1 n2 : nat) :
  forall p : Z,
    load m p (n1 + n2) = load m p n1 ++ load m (p + Z.of_nat n1) n2.
Proof.
  induction n1 as [ | n1 IH ]; intro p.
  - simpl. now rewrite Z.add_0_r.
  - cbn [Nat.add]. rewrite !load_S, IH. cbn [app]. do 3 f_equal. lia.
Qed.

Lemma input_blocks_S (m : mem) (input : Z) (blocks : nat) :
  input_blocks m input (S blocks) =
  load m input 64 :: input_blocks m (input + 64) blocks.
Proof.
  unfold input_blocks. cbn [seq map]. f_equal.
  - f_equal. lia.
  - rewrite <- seq_shift, map_map. apply map_ext.
    intro k. f_equal. lia.
Qed.

Section LoopFacts.
Variable digest : list byte -> list byte.

(** A loop over [n1 + n2] blocks is a loop over [n1] blocks followed by a
    loop over [n2] blocks at the pointers the first one stopped at. *)
Lemma sha256_sse_loop_app (n1 : nat) :
  forall (m : mem) (output input : Z) (n2 : nat),
    sha256_sse_loop digest m output input (n1 + n2) =
    sha256_sse_loop digest
      (sha256_sse_loop digest m output input n1)
      (output + 32 * Z.of_nat n1) (input + 64 * Z.of_nat n1) n2.
Proof.
  induction n1 as [ | n1 IH ]; intros m output input n2.
  - cbn [Nat.add sha256_sse_loop Z.of_nat]. now rewrite !Z.mul_0_r, !Z.add_0_r.
  - cbn [Nat.add sha256_sse_loop]. cbv zeta. unfold BYTES_PER_CHUNK.
    rewrite IH. f_equal; lia.
Qed.

Hypothesis digest_length : forall blk, length (digest blk) = 32%nat.

(** With no digest landing on a block still to be read, the output region
    holds the digests of the input blocks, one after the other. *)
Lemma sha256_sse_loop_output (blocks : nat) :
  forall (m : mem) (output input : Z),
    spares_later_inputs output input (Z.of_nat blocks) ->
    load (sha256_sse_loop digest m output input blocks) output (32 * blocks) =
    concat (map digest (input_blocks m input blocks)).
Proof.
  induction blocks as [ | blocks IH ]; intros m output input Hsp.
  - reflexivity.
  - replace (32 * S blocks)%nat with (32 + 32 * blocks)%nat by lia.
    rewrite load_app, input_blocks_S. cbn [map concat]. f_equal.
    + pose proof (sha256_sse_loop_block digest digest_length (S blocks)
                    m output input 0%nat ltac:(lia) Hsp) as H0.
      cbn [Z.of_nat] in H0. rewrite !Z.mul_0_r, !Z.add_0_r in H0. exact H0.
    + cbn [sha256_sse_loop]. cbv zeta. unfold BYTES_PER_CHUNK.
      change (Z.of_nat 32) with 32. change (2 * 32) with 64.
      rewrite IH.
      * do 2 f_equal. unfold input_blocks. apply map_ext_in.
        intros k Hk. apply in_seq in Hk.
        apply load_ext. intros a Ha. unfold sha256_1_avx.
        apply store_outside. rewrite digest_length.
        specialize (Hsp 0 (Z.of_nat k + 1)). lia.
      * intros j k Hjk Hk. specialize (Hsp (j + 1) (k + 1)). lia.
Qed.

End LoopFacts.

(** X7: [sha256_sse] writes nowhere but in the [32 * blocks] bytes that
    start at [output]: every other byte of memory is as before the call, and
    so is the whole input buffer when the two buffers are disjoint. *)
Theorem sha256_sse_writes_only_output
    (digest : list byte -> list byte)
    (digest_length : forall blk, length (digest blk) = 32%nat)
    (m : mem) (output input : Z) (blocks : N) :
  (forall a : Z,
      a < output \/ output + 32 * Z.of_N blocks <= a ->
      Hasher_sha256_sse digest m output input blocks a = m a) /\
  (output + 32 * Z.of_N blocks <= input \/ input + 64 * Z.of_N blocks <= output ->
   load (Hasher_sha256_sse digest m output input blocks) input (64 * N.to_nat blocks) =
   load m input (64 * N.to_nat blocks)).
Proof.
  assert (Hframe : forall a : Z,
             a < output \/ output + 32 * Z.of_N blocks <= a ->
             Hasher_sha256_sse digest m output input blocks a = m a).
  { intros a Ha. unfold Hasher_sha256_sse.
    apply sha256_sse_loop_outside; [ exact digest_length | ].
    rewrite N_nat_Z. exact Ha. }
  split; [ exact Hframe | ].
  intro Hsep. apply load_ext. intros a Ha. apply Hframe. lia.
Qed.

Lemma sha256_sse_writes_only_output_witness :
  load (Hasher_sha256_sse first_half ramp_mem 1000 0 3) 0 (64 * N.to_nat 3) =
  load ramp_mem 0 (64 * N.to_nat 3).
Proof.
  apply (proj2 (sha256_sse_writes_only_output first_half first_half_length
                  ramp_mem 1000 0 3) ltac:(right; lia)).
Defined.

(** X8: a call on [n1 + n2] blocks is a call on the first [n1] blocks
    followed by a call on the remaining [n2] blocks with both pointers
    advanced past the first [n1]; this holds for every placement of the
    buffers, overlapping or not. *)
Theorem sha256_sse_split
    (digest : list byte -> list byte)
    (m : mem) (output input : Z) (n1 n2 : N) :
  Hasher_sha256_sse digest m output input (n1 + n2) =
  Hasher_sha256_sse digest
    (Hasher_sha256_sse digest m output input n1)
    (output + 32 * Z.of_N n1) (input + 64 * Z.of_N n1) n2.
Proof.
  unfold Hasher_sha256_sse.
  replace (N.to_nat (n1 + n2)) with (N.to_nat n1 + N.to_nat n2)%nat by lia.
  rewrite sha256_sse_loop_app, N_nat_Z. reflexivity.
Qed.

(** X9: when no digest is written over an input block still to be read, the
    [32 * blocks] bytes at [output] after a call of [sha256_sse] are the
    digests of the [blocks] input blocks, in order and back to back; this
    covers hashing in place, with [output] equal to [input]. *)
Theorem sha256_sse_output_is_digests
    (digest : list byte -> list byte)
    (digest_length : forall blk, length (digest blk) = 32%nat)
    (m : mem) (output input : Z) (blocks : N) :
  spares_later_inputs output input (Z.of_N blocks) ->
  load (Hasher_sha256_sse digest m output input blocks) output (32 * N.to_nat blocks) =
  concat (map digest (input_blocks m input (N.to_nat blocks))).
Proof.
  intro Hsp. unfold Hasher_sha256_sse.
  apply sha256_sse_loop_output; [ exact digest_length | ].
  now rewrite N_nat_Z.
Qed.

(** Two blocks hashed in place. *)
Lemma sha256_sse_output_is_digests_witness :
  load (Hasher_sha256_sse first_half ramp_mem 0 0 2) 0 (32 * N.to_nat 2) =
  concat (map first_half (input_blocks ramp_mem 0 (N.to_nat 2))).
Proof.
  apply (sha256_sse_output_is_digests first_half first_half_length ramp_mem 0 0 2
           ltac:(intros j k Hjk Hk; lia)).
Defined.
